(** * westarver/errors: a shallow embedding of errors.go

    The package decorates an error with a user message, a logging policy,
    a level and a stack budget, and handles it through [Handle].  The
    embedding follows the Go source function by function:

    - dynamic values ([any]) keep what the package looks at: whether the
      value is a string, and the text [fmt.Sprint] gives for it;
    - [error] values are the three shapes the dispatcher can tell apart:
      some other error type, an [ExtendedError] value, a [*ExtendedError];
    - calls of the configurable print and log functions, writes of the
      [log] package, panics and [os.Exit] live in the monad [Go]. *)

From Stdlib Require Import String Ascii List ZArith Bool Lia.
Import ListNotations.
Local Open Scope string_scope.
Local Open Scope Z_scope.
Set Warnings "-register-all".

(** The newline character as a string. *)
Definition nl : string := String (ascii_of_nat 10) EmptyString.

(** ** Dynamic values and the parts of [fmt] and [strings] in use *)

(** A value of type [any].  The package only asks whether a value is a
    string ([m.(string)]) and prints it with [fmt.Sprint]; a value of
    another type carries the text the [%v] verb gives for it. *)
Inductive any : Type :=
| AString (s : string)
| ANonString (shown : string).

Definition isString (a : any) : bool :=
  match a with AString _ => true | ANonString _ => false end.

Definition shown_text (a : any) : string :=
  match a with AString s => s | ANonString t => t end.

(** [fmt.Sprint]: operands in their default format; a space goes between
    two operands when neither is a string. *)
Fixpoint Sprint (a : list any) : string :=
  match a with
  | [] => ""
  | x :: rest =>
      match rest with
      | [] => shown_text x
      | y :: _ =>
          shown_text x
          ++ (if isString x || isString y then "" else " ")
          ++ Sprint rest
      end
  end.

(** [fmt.Sprintln]: a space between all operands and a final newline. *)
Definition Sprintln (a : list any) : string :=
  String.concat " " (map shown_text a) ++ nl.

Definition inCutset (c : ascii) (cutset : string) : bool :=
  existsb (Ascii.eqb c) (list_ascii_of_string cutset).

(** [strings.TrimRight s cutset]: [s] without its trailing characters
    that belong to [cutset]. *)
Fixpoint TrimRight (s cutset : string) : string :=
  match s with
  | EmptyString => EmptyString
  | String c s' =>
      match TrimRight s' cutset with
      | EmptyString => if inCutset c cutset then EmptyString else String c EmptyString
      | t => String c t
      end
  end.

(** [strings.Contains s substr]. *)
Fixpoint Contains (s substr : string) : bool :=
  String.prefix substr s
  || match s with
     | EmptyString => false
     | String _ s' => Contains s' substr
     end.

(** ** The process: standard output, the shared logger, the call stack *)

(** A frame of a [pkgerr.StackTrace], kept as the text [%+v] prints. *)
Definition Frame : Type := string.
Definition StackTrace : Type := list Frame.

(** A line written by the standard logger: the prefix and flags in force
    and the text.  The timestamp the flags ask for is left out. *)
Record LogLine : Type := mkLogLine {
  line_prefix : string;
  line_flags : Z;
  line_text : string
}.

Record World : Type := mkWorld {
  stdout : list string;        (* what fmt.Println wrote *)
  log_prefix : string;         (* log.SetPrefix *)
  log_flags : Z;               (* log.SetFlags *)
  log_output : list LogLine;   (* what the standard logger wrote *)
  callers : StackTrace         (* frames pkgerr.WithStack captures *)
}.

(** How a call ends: it returns, it panics, or the process exits. *)
Inductive Outcome (A : Type) : Type :=
| Returned (a : A) (w : World)
| Panicked (v : string) (w : World)
| Exited (code : Z) (w : World).
Arguments Returned {A} a w.
Arguments Panicked {A} v w.
Arguments Exited {A} code w.

Definition Go (A : Type) : Type := World -> Outcome A.

Definition ret {A} (a : A) : Go A := fun w => Returned a w.

Definition bind {A B} (m : Go A) (k : A -> Go B) : Go B :=
  fun w =>
    match m w with
    | Returned a w' => k a w'
    | Panicked v w' => Panicked v w'
    | Exited c w' => Exited c w'
    end.

Definition panic {A} (v : string) : Go A := fun w => Panicked v w.

Notation "x <- m ;; k" := (bind m (fun x => k))
  (at level 61, m at next level, right associativity).
Notation "m ;;; k" := (bind m (fun _ => k))
  (at level 61, right associativity).

(** A pure computation that may panic. *)
Inductive Res (A : Type) : Type :=
| Ok (a : A)
| Fault (v : string).
Arguments Ok {A} a.
Arguments Fault {A} v.

Definition lift {A} (r : Res A) : Go A :=
  match r with
  | Ok a => ret a
  | Fault v => panic v
  end.

(** The panic value of a failed [x.(string)]. *)
Definition TypeAssertionError : string :=
  "interface conversion: interface {} is not string".

(** *** The [log] and [fmt] calls of the default functions *)

Definition Ldate : Z := 1.
Definition Ltime : Z := 2.

Definition log_SetPrefix (p : string) : Go unit :=
  fun w => Returned tt
    (mkWorld (stdout w) p (log_flags w) (log_output w) (callers w)).

Definition log_SetFlags (f : Z) : Go unit :=
  fun w => Returned tt
    (mkWorld (stdout w) (log_prefix w) f (log_output w) (callers w)).

Definition log_Println (v : list any) : Go unit :=
  fun w => Returned tt
    (mkWorld (stdout w) (log_prefix w) (log_flags w)
       (log_output w ++ [mkLogLine (log_prefix w) (log_flags w) (Sprintln v)])
       (callers w)).

Definition os_Exit {A} (code : Z) : Go A := fun w => Exited code w.

(** [log.Fatalln]: [Println] followed by [os.Exit(1)]. *)
Definition log_Fatalln (v : list any) : Go unit :=
  log_Println v ;;; os_Exit 1.

Definition fmt_Println (v : list any) : Go unit :=
  fun w => Returned tt
    (mkWorld (stdout w ++ [Sprintln v]) (log_prefix w) (log_flags w)
       (log_output w) (callers w)).

(** ** errors.go *)

Definition LogErr : string := "Log and return ".
Definition Panic : string := "Log and panic ".
Definition Fail : string := "Log and exit ".

Definition LogFunc : Type := list any -> Go unit.
Definition PrintFunc : Type := list any -> Go unit.

(** The default function used to log errors; the first argument becomes
    the log prefix. *)
Definition errlog : LogFunc := fun elem =>
  match elem with
  | [] => ret tt
  | e0 :: rest =>
      match e0 with
      | AString p =>
          log_SetPrefix p ;;;
          log_SetFlags (Z.lor Ldate Ltime) ;;;
          if (1 <? Z.of_nat (length elem)) then log_Println rest
          else log_Println []
      | ANonString _ => panic TypeAssertionError
      end
  end.

(** The default function to log fatal errors. *)
Definition faillog : LogFunc := fun elem =>
  match elem with
  | [] => ret tt
  | e0 :: _ =>
      match e0 with
      | AString p =>
          log_SetPrefix p ;;;
          log_SetFlags (Z.lor Ldate Ltime) ;;;
          log_Fatalln elem
      | ANonString _ => panic TypeAssertionError
      end
  end.

(** The default function used to print messages for the user. *)
Definition print : PrintFunc := fun msg => fmt_Println msg.

(** The package variables [ErrLogger], [FailLogger] and [ErrPrinter]:
    [New] reads them when it is called. *)
Record Globals : Type := mkGlobals {
  ErrLogger : LogFunc;
  FailLogger : LogFunc;
  ErrPrinter : PrintFunc
}.

Definition defaults : Globals := mkGlobals errlog faillog print.

(** The struct, over the type of the error it wraps. *)
Record ExtendedErrorOf (E : Type) : Type := mkExtendedError {
  werr : option E;          (* error that is "wrapped", can be nil *)
  Id : string;              (* either LogErr, Panic or Fail *)
  usermsg : string;         (* error message shown to end users *)
  level : Z;                (* logging level *)
  logfn : LogFunc;          (* function to use for logging *)
  printfn : PrintFunc;      (* function to use to print user messages *)
  stackFrames : Z;          (* number of stack frames to log *)
  Handled : bool            (* to prevent multiple logging episodes *)
}.
Arguments mkExtendedError {E}.
Arguments werr {E}.
Arguments Id {E}.
Arguments usermsg {E}.
Arguments level {E}.
Arguments logfn {E}.
Arguments printfn {E}.
Arguments stackFrames {E}.
Arguments Handled {E}.

(** An [error] interface value that is not nil.  [OtherError] is a value
    of any type other than the two below, with the text its [Error]
    method returns; [PointerError] is a non-nil [*ExtendedError] with the
    struct it points to.  A nil interface is [None : option error]. *)
Inductive error : Type :=
| OtherError (text : string)
| ValueError (e : ExtendedErrorOf error)
| PointerError (target : ExtendedErrorOf error).

Definition ExtendedError : Type := ExtendedErrorOf error.

(** [New]: a usable instance; [err], when not nil, is wrapped. *)
Definition New (g : Globals) (err : option error) (id : string)
    (msg : string) : ExtendedError :=
  let e := mkExtendedError None id msg 1 (ErrLogger g) (ErrPrinter g) 3 false in
  let e :=
    if String.eqb id Fail || String.eqb id Panic then
      mkExtendedError (werr e) (Id e) (usermsg e) 4 (FailLogger g) (printfn e) (-1) (Handled e)
    else
      mkExtendedError (werr e) LogErr (usermsg e) (level e) (logfn e) (printfn e)
        (stackFrames e) (Handled e) in
  match err with
  | Some _ =>
      mkExtendedError err (Id e) (usermsg e) (level e) (logfn e) (printfn e)
        (stackFrames e) (Handled e)
  | None => e
  end.

(** The dispatcher calls the constructor as [NewExtendedError], the name
    the comment above [New] gives it. *)
Definition NewExtendedError := New.

(** [Log]: changes the level, and the logger when one is given. *)
Definition ExtendedError_Log (e : ExtendedError) (lvl : Z)
    (fn : list LogFunc) : ExtendedError :=
  let e := mkExtendedError (werr e) (Id e) (usermsg e) lvl (logfn e) (printfn e)
             (stackFrames e) (Handled e) in
  match fn with
  | f0 :: _ =>
      mkExtendedError (werr e) (Id e) (usermsg e) (level e) f0 (printfn e)
        (stackFrames e) (Handled e)
  | [] => e
  end.

Definition ExtendedError_Print (e : ExtendedError) (fn : PrintFunc)
    : ExtendedError :=
  mkExtendedError (werr e) (Id e) (usermsg e) (level e) (logfn e) fn
    (stackFrames e) (Handled e).

Definition ExtendedError_Stack (e : ExtendedError) (frames : Z)
    : ExtendedError :=
  mkExtendedError (werr e) (Id e) (usermsg e) (level e) (logfn e) (printfn e)
    frames (Handled e).

(** [(ExtendedError).Error], over the [Error] method of the wrapped
    error. *)
Definition ExtendedErrorOf_Error {E} (wrappedError : E -> string)
    (e : ExtendedErrorOf E) : string :=
  let em := usermsg e in
  match werr e with
  | Some w => em ++ ": " ++ wrappedError w
  | None => usermsg e
  end.

(** The [Error] method of an error value; a [*ExtendedError] has the
    method of the struct it points to. *)
Fixpoint error_Error (err : error) : string :=
  match err with
  | OtherError text => text
  | ValueError e => ExtendedErrorOf_Error error_Error e
  | PointerError target => ExtendedErrorOf_Error error_Error target
  end.

Definition ExtendedError_Error (e : ExtendedError) : string :=
  ExtendedErrorOf_Error error_Error e.

Definition ExtendedError_Unwrap (e : ExtendedError) : option error :=
  werr e.

(** *** Stack traces *)

(** What [pkgerr.WithStack] returns: the error and the frames of the
    call stack at that point. *)
Record withStack : Type := mkWithStack {
  cause : error;
  stack : StackTrace
}.

(** The argument of [stackFrames]: an error that has the [StackTrace]
    method, or one that has not. *)
Inductive tracedError : Type :=
| Traced (e : withStack)
| Untraced (err : error).

Definition pkgerr_WithStack (err : error) : Go tracedError :=
  fun w => Returned (Traced (mkWithStack err (callers w))) w.

(** [fmt.Sprintf("%+v", st)] for a [pkgerr.StackTrace]: every frame on a
    line of its own, each preceded by a newline. *)
Definition formatStackTrace (st : StackTrace) : string :=
  String.concat "" (map (fun f => nl ++ f) st).

(** [stackFrames(err, f...)]: the text of the top [f[0]] frames of the
    stack of [err]; of all frames when [f[0]] is negative, not below the
    number of frames, or absent. *)
Definition stackFramesOf (err : tracedError) (f : list Z) : string :=
  match err with
  | Untraced _ => ""
  | Traced er =>
      let fr := match f with f0 :: _ => f0 | [] => 0 end in
      if (0 <? Z.of_nat (length f)) && (fr =? 0) then ""
      else
        let st := stack er in
        if (0 <? fr) && (fr <? Z.of_nat (length st))
        then formatStackTrace (firstn (Z.to_nat fr) st)
        else formatStackTrace st
  end.

(** *** Context messages *)

(** The body of the loop of [concatMsg] from index [i] on, with [n] the
    length of the whole slice and [em] the text built so far. *)
Fixpoint concatMsg_loop (n : Z) (i : Z) (msg : list any) (em : string)
    : Res string :=
  match msg with
  | [] => Ok em
  | m :: rest =>
      if i =? 0 then
        match m with
        | AString s =>
            concatMsg_loop n (i + 1) rest
              (em ++ Sprint [AString (TrimRight s " "); AString ": "])
        | ANonString _ => Fault TypeAssertionError
        end
      else if i =? n - 1 then
        concatMsg_loop n (i + 1) rest (em ++ Sprint [m])
      else
        concatMsg_loop n (i + 1) rest (em ++ Sprint [m; AString ", "])
  end.

Definition concatMsg (msg : list any) : Res string :=
  let em := "" in
  if 0 <? Z.of_nat (length msg) then
    match concatMsg_loop (Z.of_nat (length msg)) 0 msg em with
    | Ok em => Ok (em ++ nl)
    | Fault v => Fault v
    end
  else Ok em.

(** *** Handling *)

(** [handle]: prints the message for the user, then logs it when the
    level is positive. *)
Definition handle (err : ExtendedError) (logmsg : string) : Go unit :=
  e <- pkgerr_WithStack (ValueError err) ;;
  let em := usermsg err in
  let em :=
    match werr err with
    | Some w => em ++ ": " ++ error_Error w
    | None => em
    end in
  printfn err [AString em] ;;;
  let st := stackFramesOf e [stackFrames err] in
  if 0 <? level err then
    if stackFrames err =? 0 then
      logfn err
        [AString (Id err);
         AString (logmsg ++ nl ++ "Printed for user: " ++ ExtendedError_Error err ++ nl)]
    else
      logfn err
        [AString (Id err);
         AString (logmsg ++ nl ++ "Printed for user: " ++ ExtendedError_Error err
                  ++ nl ++ st ++ " ")]
  else ret tt.

Definition setHandled (e : ExtendedError) (b : bool) : ExtendedError :=
  mkExtendedError (werr e) (Id e) (usermsg e) (level e) (logfn e) (printfn e)
    (stackFrames e) b.

(** The [Handle] method of [*ExtendedError]: the struct the receiver points to after
    the call, and the error returned (a copy of that struct). *)
Definition ExtendedError_Handle (e : ExtendedError) (logmsg : list any)
    : Go (ExtendedError * error) :=
  m <- lift (concatMsg logmsg) ;;
  handle e m ;;;
  let e := setHandled e true in
  ret (e, ValueError e).

(** [Handle]: the dispatcher. *)
Definition Handle (g : Globals) (err : option error) (msg : list any)
    : Go (option error) :=
  match err with
  | None => ret None
  | Some er =>
      match er with
      | ValueError Err =>
          r <- ExtendedError_Handle Err msg ;; ret (Some (snd r))
      | _ =>
          match msg with
          | AString t :: rest =>
              um <- lift (concatMsg rest) ;;
              let e := NewExtendedError g err t um in
              r <- ExtendedError_Handle e [] ;; ret (Some (snd r))
          | _ => ret (Some er)
          end
      end
  end.

(** A process that has written nothing yet, called from [main]. *)
Definition world0 : World := mkWorld [] "" 0 [] ["main.main"; "runtime.main"].

(** What a returned call left on standard output and in the log. *)
Definition stdout_and_log {A} (o : Outcome A)
    : option (list string * list LogLine) :=
  match o with
  | Returned _ w => Some (stdout w, log_output w)
  | _ => None
  end.

(** ** Vocabulary of the properties *)

(** The text [handle] gives the log function after the id. *)
Definition logDetail (err : ExtendedError) (logmsg : string) (st : StackTrace)
    : string :=
  if stackFrames err =? 0 then
    logmsg ++ nl ++ "Printed for user: " ++ ExtendedError_Error err ++ nl
  else
    logmsg ++ nl ++ "Printed for user: " ++ ExtendedError_Error err ++ nl
    ++ stackFramesOf (Traced (mkWithStack (ValueError err) st)) [stackFrames err]
    ++ " ".

(** The calls on an instance that are not configuration calls: [Handle]
    leaves the struct as its first component says; [Error] and [Unwrap]
    have value receivers and leave it as it is. *)
Inductive nonconfig_call : ExtendedError -> ExtendedError -> Prop :=
| call_Handle e logmsg w e' r w' :
    ExtendedError_Handle e logmsg w = Returned (e', r) w' ->
    nonconfig_call e e'
| call_Error e s : ExtendedError_Error e = s -> nonconfig_call e e
| call_Unwrap e o : ExtendedError_Unwrap e = o -> nonconfig_call e e.

(** Any number of such calls, one after the other. *)
Inductive nonconfig_calls : ExtendedError -> ExtendedError -> Prop :=
| calls_none e : nonconfig_calls e e
| calls_more e1 e2 e3 :
    nonconfig_calls e1 e2 -> nonconfig_call e2 e3 -> nonconfig_calls e1 e3.

(** A package state in which the fatal logger was replaced by one that
    returns, so that handling a fatal instance comes back. *)
Definition quietFail : Globals := mkGlobals errlog errlog print.

(** The two ways [Handle] handles an error: the instance's own method,
    and a new instance built around the error. *)
Definition delegated (Err : ExtendedError) (msg : list any)
    : Go (option error) :=
  r <- ExtendedError_Handle Err msg ;; ret (Some (snd r)).

Definition promoted (g : Globals) (err : error) (t : string)
    (rest : list any) : Go (option error) :=
  um <- lift (concatMsg rest) ;;
  r <- ExtendedError_Handle (New g (Some err) t um) [] ;; ret (Some (snd r)).

Definition isValue (err : error) : bool :=
  match err with ValueError _ => true | _ => false end.

(** How many [ExtendedError] layers an error has. *)
Fixpoint layers (err : error) : nat :=
  match err with
  | OtherError _ => 0
  | ValueError e =>
      S (match werr e with Some w => layers w | None => 0 end)
  | PointerError target =>
      S (match werr target with Some w => layers w | None => 0 end)
  end.

(** The instance [Handle(err, "SomeId", "detail")] builds and returns,
    after it was handled. *)
Definition promotedSomeId (g : Globals) (err : error) : ExtendedError :=
  mkExtendedError (Some err) LogErr ("detail: " ++ nl) 1 (ErrLogger g)
    (ErrPrinter g) 3 true.

(** The configuration calls: [Log], [Print] and [Stack]. *)
Inductive config_call : ExtendedError -> ExtendedError -> Prop :=
| call_Log e lvl fns : config_call e (ExtendedError_Log e lvl fns)
| call_Print e fn : config_call e (ExtendedError_Print e fn)
| call_Stack e frames : config_call e (ExtendedError_Stack e frames).

(** Any number of method calls on an instance, of either kind. *)
Inductive method_calls : ExtendedError -> ExtendedError -> Prop :=
| methods_none e : method_calls e e
| methods_config e1 e2 e3 :
    method_calls e1 e2 -> config_call e2 e3 -> method_calls e1 e3
| methods_nonconfig e1 e2 e3 :
    method_calls e1 e2 -> nonconfig_call e2 e3 -> method_calls e1 e3.

(** [n] spaces. *)
Fixpoint spaces (n : nat) : string :=
  match n with
  | O => EmptyString
  | S n' => String " " (spaces n')
  end.

(** The frames a stack budget other than 0 keeps. *)
Definition keptFrames (budget : Z) (st : StackTrace) : StackTrace :=
  if 0 <? budget then firstn (Z.to_nat budget) st else st.

(** The process after one more line on standard output. *)
Definition printed (w : World) (line : string) : World :=
  mkWorld (stdout w ++ [line]) (log_prefix w) (log_flags w) (log_output w)
    (callers w).

(** The process after the standard logger, set to prefix [p] and the
    date and time flags, wrote one more line. *)
Definition logged (w : World) (p : string) (text : string) : World :=
  mkWorld (stdout w) p (Z.lor Ldate Ltime)
    (log_output w ++ [mkLogLine p (Z.lor Ldate Ltime) text]) (callers w).

(** * Properties *)

(** ** Strings and the monad *)

Lemma append_assoc (a b c : string) : (a ++ b) ++ c = a ++ (b ++ c).
Proof.
  induction a as [|ch a IH]; simpl; [reflexivity|].
  now rewrite IH.
Qed.

Lemma append_empty_r (a : string) : a ++ "" = a.
Proof.
  induction a as [|ch a IH]; simpl; [reflexivity|].
  now rewrite IH.
Qed.

Lemma bind_ret_unit (m : Go unit) (w : World) : (m ;;; ret tt) w = m w.
Proof.
  unfold bind, ret.
  destruct (m w) as [[] w'| |]; reflexivity.
Qed.

Lemma bind_Returned {A B} (m : Go A) (k : A -> Go B) w a w' :
  m w = Returned a w' -> bind m k w = k a w'.
Proof. unfold bind. now intros ->. Qed.

Lemma bind_assoc {A B C} (m : Go A) (k : A -> Go B) (h : B -> Go C) w :
  bind (bind m k) h w = bind m (fun a => bind (k a) h) w.
Proof. unfold bind. destruct (m w); reflexivity. Qed.

Lemma bind_ext {A B} (m : Go A) (k k' : A -> Go B) w :
  (forall a w', k a w' = k' a w') -> bind m k w = bind m k' w.
Proof. intros H. unfold bind. destruct (m w); auto. Qed.

Lemma bind_cong {A B} (m m' : Go A) (k : A -> Go B) w :
  m w = m' w -> bind m k w = bind m' k w.
Proof. unfold bind. now intros ->. Qed.

Lemma bind_inv_Returned {A B} (m : Go A) (k : A -> Go B) w b w2 :
  bind m k w = Returned b w2 ->
  exists a w1, m w = Returned a w1 /\ k a w1 = Returned b w2.
Proof.
  unfold bind. destruct (m w) as [a w1| |]; try discriminate.
  intros H. now exists a, w1.
Qed.

(** ** [concatMsg] *)

(** [fmt.Sprint] of one operand, and of an operand followed by a
    string. *)
Lemma Sprint_one (m : any) : Sprint [m] = shown_text m.
Proof. reflexivity. Qed.

Lemma Sprint_then_string (m : any) (s : string) :
  Sprint [m; AString s] = shown_text m ++ s.
Proof.
  simpl. now rewrite orb_true_r.
Qed.

(** From index 1 on, the loop joins what is left with [", "]. *)
Lemma concatMsg_loop_tail (n : Z) (msg : list any) :
  forall (i : Z) (em : string),
    0 < i ->
    n = i + Z.of_nat (length msg) ->
    concatMsg_loop n i msg em
    = Ok (em ++ String.concat ", " (map shown_text msg)).
Proof.
  induction msg as [|m rest IH]; intros i em Hi Hn.
  - simpl. now rewrite append_empty_r.
  - cbn [concatMsg_loop].
    destruct (Z.eqb_spec i 0) as [Hz|_]; [lia|].
    destruct (Z.eqb_spec i (n - 1)) as [Hlast|Hmid].
    + assert (rest = []) as ->.
      { destruct rest; [reflexivity|]. cbn [length] in Hn. lia. }
      now rewrite Sprint_one.
    + destruct rest as [|m' rest'].
      { cbn [length] in Hn. lia. }
      rewrite IH; [| lia | cbn [length] in *; lia].
      rewrite Sprint_then_string.
      change (map shown_text (m :: m' :: rest'))
        with (shown_text m :: map shown_text (m' :: rest')).
      change (map shown_text (m' :: rest'))
        with (shown_text m' :: map shown_text rest').
      cbn [String.concat].
      now rewrite !append_assoc.
Qed.

(** With a string first, the result is the trimmed label, [": "], the
    other messages joined with [", "], and a newline. *)
Lemma concatMsg_label (a : string) (rest : list any) :
  concatMsg (AString a :: rest)
  = Ok (TrimRight a " " ++ ": "
        ++ String.concat ", " (map shown_text rest) ++ nl).
Proof.
  unfold concatMsg.
  replace (0 <? Z.of_nat (length (AString a :: rest))) with true
    by (symmetry; apply Z.ltb_lt; cbn [length]; lia).
  cbn [concatMsg_loop Z.eqb].
  rewrite concatMsg_loop_tail; [| lia | cbn [length]; lia].
  rewrite Sprint_then_string.
  cbn [append]. now rewrite !append_assoc.
Qed.

Lemma concatMsg_nil : concatMsg [] = Ok "".
Proof. reflexivity. Qed.

Lemma concatMsg_nonstring (shown : string) (rest : list any) :
  concatMsg (ANonString shown :: rest) = Fault TypeAssertionError.
Proof.
  unfold concatMsg.
  replace (0 <? Z.of_nat (length (ANonString shown :: rest))) with true
    by (symmetry; apply Z.ltb_lt; cbn [length]; lia).
  reflexivity.
Qed.


(** ** [New] *)

Lemma New_fatal (g : Globals) (err : option error) (id msg : string) :
  id = Panic \/ id = Fail ->
  New g err id msg
  = mkExtendedError err id msg 4 (FailLogger g) (ErrPrinter g) (-1) false.
Proof.
  intros Hid. unfold New.
  replace (String.eqb id Fail || String.eqb id Panic)%bool with true.
  - destruct err; reflexivity.
  - symmetry. destruct Hid as [-> | ->]; reflexivity.
Qed.

Lemma New_other (g : Globals) (err : option error) (id msg : string) :
  id <> Panic -> id <> Fail ->
  New g err id msg
  = mkExtendedError err LogErr msg 1 (ErrLogger g) (ErrPrinter g) 3 false.
Proof.
  intros HP HF. unfold New.
  apply String.eqb_neq in HP, HF. rewrite HP, HF.
  destruct err; reflexivity.
Qed.

Lemma ExtendedError_Handle_Returned e logmsg w e' r w' :
  ExtendedError_Handle e logmsg w = Returned (e', r) w' ->
  e' = setHandled e true /\ r = ValueError e'.
Proof.
  unfold ExtendedError_Handle. intros H.
  apply bind_inv_Returned in H as (m & w1 & _ & H).
  apply bind_inv_Returned in H as ([] & w2 & _ & H).
  unfold ret in H. injection H as <- <- _. now split.
Qed.

Lemma nonconfig_call_fields e e' :
  nonconfig_call e e' ->
  level e' = level e /\ stackFrames e' = stackFrames e /\ logfn e' = logfn e
  /\ Id e' = Id e.
Proof.
  destruct 1 as [e logmsg w e' r w' H| |]; try now repeat split.
  apply ExtendedError_Handle_Returned in H as [-> _].
  now repeat split.
Qed.

Lemma nonconfig_calls_fields e e' :
  nonconfig_calls e e' ->
  level e' = level e /\ stackFrames e' = stackFrames e /\ logfn e' = logfn e
  /\ Id e' = Id e.
Proof.
  induction 1 as [e|e1 e2 e3 _ IH Hc]; [now repeat split|].
  apply nonconfig_call_fields in Hc.
  destruct IH as (IH1 & IH2 & IH3 & IH4), Hc as (H1 & H2 & H3 & H4).
  repeat split; congruence.
Qed.

(** C3: built with the [Panic] or the [Fail] id, an instance has level 4,
    a negative stack budget (-1, no limit) and [FailLogger] as its log
    function, whatever error it wraps and after any calls that are not
    configuration calls. *)
Theorem New_fatal_policy (g : Globals) (err : option error) (id msg : string)
    (e' : ExtendedError) :
  id = Panic \/ id = Fail ->
  nonconfig_calls (New g err id msg) e' ->
  let e := New g err id msg in
  (level e = 4 /\ stackFrames e = -1 /\ stackFrames e < 0
   /\ logfn e = FailLogger g)
  /\ (level e' = 4 /\ stackFrames e' = -1 /\ stackFrames e' < 0
      /\ logfn e' = FailLogger g).
Proof.
  intros Hid Hcalls e.
  apply nonconfig_calls_fields in Hcalls as (Hl & Hs & Hf & _).
  fold e in Hl, Hs, Hf. rewrite Hl, Hs, Hf.
  subst e. rewrite (New_fatal g err id msg Hid). cbn.
  repeat split; reflexivity.
Qed.

Lemma New_fatal_policy_witness :
  let e := New quietFail (Some (OtherError "disk full")) Fail "cannot save" in
  (level e = 4 /\ stackFrames e = -1 /\ stackFrames e < 0
   /\ logfn e = FailLogger quietFail)
  /\ (level (setHandled e true) = 4 /\ stackFrames (setHandled e true) = -1
      /\ stackFrames (setHandled e true) < 0
      /\ logfn (setHandled e true) = FailLogger quietFail).
Proof.
  apply (New_fatal_policy quietFail (Some (OtherError "disk full")) Fail
           "cannot save").
  - right; reflexivity.
  - eapply calls_more; [apply calls_none|].
    eapply call_Handle with (logmsg := [AString "save"]) (w := world0).
    reflexivity.
Defined.

(** C4: built with any id other than [Panic] and [Fail], an instance
    stores [LogErr] as its id and has the defaults, level 1 and three
    stack frames. *)
Theorem New_other_normalizes (g : Globals) (err : option error)
    (id msg : string) :
  id <> Panic -> id <> Fail ->
  let e := New g err id msg in
  Id e = LogErr /\ level e = 1 /\ stackFrames e = 3.
Proof.
  intros HP HF e. subst e. rewrite (New_other g err id msg HP HF).
  repeat split.
Qed.

Lemma New_other_normalizes_witness :
  let e := New defaults None "SomeId" "not too bad" in
  Id e = LogErr /\ level e = 1 /\ stackFrames e = 3.
Proof.
  apply (New_other_normalizes defaults None "SomeId" "not too bad");
    discriminate.
Defined.

(** ** [Error] *)

(** C5: with a wrapped error and a user message that is not empty,
    [Error()] is the user message, [": "] and the wrapped error's
    message; with no wrapped error it is the user message. *)
Theorem ExtendedError_Error_spec (e : ExtendedError) :
  (forall wrapped : error,
      werr e = Some wrapped -> usermsg e <> "" ->
      ExtendedError_Error e = usermsg e ++ ": " ++ error_Error wrapped)
  /\ (werr e = None -> ExtendedError_Error e = usermsg e).
Proof.
  unfold ExtendedError_Error, ExtendedErrorOf_Error.
  split.
  - intros wrapped -> _. reflexivity.
  - intros ->. reflexivity.
Qed.

Lemma ExtendedError_Error_spec_witness :
  ExtendedError_Error
    (New defaults (Some (OtherError "no such file")) LogErr "cannot open")
  = "cannot open: no such file"
  /\ ExtendedError_Error (New defaults None LogErr "cannot open")
     = "cannot open".
Proof.
  split.
  - apply (proj1 (ExtendedError_Error_spec
                    (New defaults (Some (OtherError "no such file")) LogErr
                       "cannot open"))
             (OtherError "no such file")).
    + reflexivity.
    + discriminate.
  - apply (proj2 (ExtendedError_Error_spec (New defaults None LogErr "cannot open"))).
    reflexivity.
Defined.

(** ** [handle] *)

Lemma handle_silent (err : ExtendedError) (logmsg : string) (w : World) :
  level err <= 0 ->
  handle err logmsg w = printfn err [AString (ExtendedError_Error err)] w.
Proof.
  intros Hl. unfold handle, pkgerr_WithStack, bind at 1.
  replace (0 <? level err) with false by (symmetry; apply Z.ltb_ge; lia).
  apply bind_ret_unit.
Qed.

Lemma handle_logged (err : ExtendedError) (logmsg : string) (w : World) :
  0 < level err ->
  handle err logmsg w
  = (printfn err [AString (ExtendedError_Error err)] ;;;
     logfn err [AString (Id err); AString (logDetail err logmsg (callers w))]) w.
Proof.
  intros Hl. unfold handle, pkgerr_WithStack, bind at 1.
  replace (0 <? level err) with true by (symmetry; apply Z.ltb_lt; lia).
  unfold logDetail.
  destruct (stackFrames err =? 0); reflexivity.
Qed.

(** C6: at level 0 handling is one call of the print function with the
    display string, whatever the log function is, and no call of the log
    function; at a level above 0 the print call is followed by a call of
    the log function with the id and the detail text. *)
Theorem handle_level_gate (err : ExtendedError) (logmsg : string) (w : World) :
  (level err = 0 ->
   handle err logmsg w = printfn err [AString (ExtendedError_Error err)] w
   /\ forall lf : LogFunc,
        handle (ExtendedError_Log err 0 [lf]) logmsg w
        = printfn err [AString (ExtendedError_Error err)] w)
  /\ (0 < level err ->
      handle err logmsg w
      = (printfn err [AString (ExtendedError_Error err)] ;;;
         logfn err [AString (Id err); AString (logDetail err logmsg (callers w))])
          w).
Proof.
  split.
  - intros Hl. split.
    + apply handle_silent. lia.
    + intros lf. rewrite handle_silent; [reflexivity | cbn; lia].
  - apply handle_logged.
Qed.

(** With the default functions: at level 0 one line goes to standard
    output and none to the log; at level 1 one line goes to each. *)
Lemma handle_level_gate_witness :
  let e := New defaults (Some (OtherError "no such file")) LogErr "cannot open" in
  (stdout_and_log (handle (ExtendedError_Log e 0 []) "ctx" world0)
   = Some (["cannot open: no such file" ++ nl], []))
  /\ (stdout_and_log (handle e "ctx" world0)
      = Some (["cannot open: no such file" ++ nl],
              [mkLogLine LogErr 3
                 ("ctx" ++ nl ++ "Printed for user: cannot open: no such file"
                  ++ nl ++ nl ++ "main.main" ++ nl ++ "runtime.main " ++ nl)])).
Proof.
  intros e. split.
  - rewrite (proj1 (proj1 (handle_level_gate (ExtendedError_Log e 0 []) "ctx" world0)
                      eq_refl)).
    reflexivity.
  - rewrite (proj2 (handle_level_gate e "ctx" world0) eq_refl).
    reflexivity.
Defined.

(** ** The dispatcher *)

(** C7: for a nil error [Handle] returns nil and does nothing else,
    whatever the context arguments. *)
Theorem Handle_nil (g : Globals) (msg : list any) (w : World) :
  Handle g None msg w = Returned None w.
Proof. reflexivity. Qed.

(** C8: for an error that is not an [ExtendedError], with no context
    argument or a first one that is not a string, [Handle] returns the
    error it was given and does nothing else. *)
Theorem Handle_malformed (g : Globals) (err : error) (msg : list any)
    (w : World) :
  isValue err = false ->
  msg = [] \/ (exists shown rest, msg = ANonString shown :: rest) ->
  Handle g (Some err) msg w = Returned (Some err) w.
Proof.
  intros Hv Hmsg.
  destruct err as [text|e|target]; try discriminate;
    destruct Hmsg as [-> | (shown & rest & ->)]; reflexivity.
Qed.

Lemma Handle_malformed_witness :
  Handle defaults (Some (OtherError "boom")) [] world0
  = Returned (Some (OtherError "boom")) world0
  /\ Handle defaults (Some (OtherError "boom")) [ANonString "42"; AString "x"]
       world0
     = Returned (Some (OtherError "boom")) world0.
Proof.
  split.
  - apply (Handle_malformed defaults (OtherError "boom") [] world0 eq_refl).
    left; reflexivity.
  - apply (Handle_malformed defaults (OtherError "boom")
             [ANonString "42"; AString "x"] world0 eq_refl).
    right. exists "42", [AString "x"]. reflexivity.
Defined.

(** C9: with a first message that is not a string [concatMsg] panics on
    its type assertion; so do the [Handle] method and, for an
    [ExtendedError] value, the dispatcher, before anything is printed or
    logged. *)
Theorem nonstring_first_panics (shown : string) (rest : list any) :
  concatMsg (ANonString shown :: rest) = Fault TypeAssertionError
  /\ (forall (e : ExtendedError) (w : World),
        ExtendedError_Handle e (ANonString shown :: rest) w
        = Panicked TypeAssertionError w)
  /\ (forall (g : Globals) (e : ExtendedError) (w : World),
        Handle g (Some (ValueError e)) (ANonString shown :: rest) w
        = Panicked TypeAssertionError w).
Proof.
  pose proof (concatMsg_nonstring shown rest) as Hc.
  split; [exact Hc|].
  assert (Hm : forall (e : ExtendedError) (w : World),
             ExtendedError_Handle e (ANonString shown :: rest) w
             = Panicked TypeAssertionError w).
  { intros e w. unfold ExtendedError_Handle. rewrite Hc. reflexivity. }
  split; [exact Hm|].
  intros g e w. cbn [Handle]. unfold bind at 1. now rewrite Hm.
Qed.

Lemma werr_New (g : Globals) (err : option error) (id msg : string) :
  werr (New g err id msg) = err.
Proof.
  unfold New.
  destruct (String.eqb id Fail || String.eqb id Panic)%bool, err; reflexivity.
Qed.

(** A pointer to an instance is not the error that instance wraps. *)
Lemma pointer_not_wrapped (g : Globals) (err : option error) (id msg : string) :
  Some (PointerError (New g err id msg)) <> err.
Proof.
  intros H.
  assert (Hl : option_map layers (Some (PointerError (New g err id msg)))
               = option_map layers err) by now rewrite H.
  cbn [option_map layers] in Hl. rewrite werr_New in Hl.
  destruct err as [x|]; cbn in Hl; [|discriminate].
  injection Hl as Hl. lia.
Qed.

Lemma promoted_Returned g err t rest w r w' :
  promoted g err t rest w = Returned r w' ->
  exists e, r = Some (ValueError e) /\ werr e = Some err /\ Handled e = true.
Proof.
  unfold promoted. intros H.
  apply bind_inv_Returned in H as (um & w1 & _ & H).
  apply bind_inv_Returned in H as ([e' r'] & w2 & Hh & H).
  apply ExtendedError_Handle_Returned in Hh as [-> ->].
  unfold ret in H. injection H as <- _.
  eexists. split; [reflexivity|]. split; [|reflexivity].
  exact (werr_New g (Some err) t um).
Qed.

(** C10: [Handle] delegates to the instance's own method only for an
    [ExtendedError] value.  Given the pointer [New] returns, it builds a
    new instance around the pointer when the first context argument is a
    string (so what it returns wraps the pointer and is not what the
    method of the pointed instance returns), and returns the pointer as
    it is otherwise.  Given the value a call of the [Handle] method
    returned, it delegates. *)
Theorem Handle_pointer_not_delegated (g : Globals) (err : option error)
    (id msg : string) :
  let fresh := New g err id msg in
  (forall t rest w,
      Handle g (Some (PointerError fresh)) (AString t :: rest) w
      = promoted g (PointerError fresh) t rest w
      /\ forall r w',
          Handle g (Some (PointerError fresh)) (AString t :: rest) w
          = Returned r w' ->
          (exists e, r = Some (ValueError e)
                     /\ werr e = Some (PointerError fresh))
          /\ r <> Some (ValueError (setHandled fresh true)))
  /\ (forall w,
         Handle g (Some (PointerError fresh)) [] w
         = Returned (Some (PointerError fresh)) w)
  /\ (forall shown rest w,
         Handle g (Some (PointerError fresh)) (ANonString shown :: rest) w
         = Returned (Some (PointerError fresh)) w)
  /\ (forall e logmsg w e' r w',
         ExtendedError_Handle e logmsg w = Returned (e', r) w' ->
         forall msg' w2, Handle g (Some r) msg' w2 = delegated e' msg' w2).
Proof.
  intros fresh. repeat split; try reflexivity.
  - apply promoted_Returned in H as (e & -> & He & _). now exists e.
  - apply promoted_Returned in H as (e & -> & He & _).
    intros Heq. injection Heq as ->. cbn in He.
    subst fresh. rewrite werr_New in He.
    symmetry in He. now apply pointer_not_wrapped in He.
  - intros e logmsg w e' r w' H msg' w2.
    apply ExtendedError_Handle_Returned in H as [_ ->]. reflexivity.
Qed.

Lemma Handle_pointer_not_delegated_witness :
  let e := New defaults None LogErr "cannot open" in
  Handle defaults (Some (ValueError (setHandled e true))) [AString "again"] world0
  = delegated (setHandled e true) [AString "again"] world0.
Proof.
  intros e.
  apply (proj2 (proj2 (proj2
           (Handle_pointer_not_delegated defaults None LogErr "cannot open")))
           e [AString "first"] world0 (setHandled e true)
           (ValueError (setHandled e true))
           (mkWorld ["cannot open" ++ nl] LogErr 3
              [mkLogLine LogErr 3
                 ("first: " ++ nl ++ nl ++ "Printed for user: cannot open" ++ nl
                  ++ nl ++ "main.main" ++ nl ++ "runtime.main " ++ nl)]
              (callers world0))).
  reflexivity.
Defined.

(** *** Promotion of a plain error *)

(** [Handle(errors.New("boom"), "SomeId", "detail")] with the default
    functions returns an error whose text is ["detail: \n: boom"], which
    does not contain ["detail: boom"], and the id that went to the
    logger, kept as the prefix of the line logged, is [LogErr], not
    ["SomeId"]. *)
Lemma Handle_SomeId_counterexample :
  exists (e : ExtendedError) (w' : World),
    Handle defaults (Some (OtherError "boom"))
      [AString "SomeId"; AString "detail"] world0
    = Returned (Some (ValueError e)) w'
    /\ ExtendedError_Error e = "detail: " ++ nl ++ ": boom"
    /\ Contains (ExtendedError_Error e) ("detail: " ++ "boom") = false
    /\ map line_prefix (log_output w') = ["Log and return "]
    /\ map line_prefix (log_output w') <> ["SomeId"].
Proof.
  exists (promotedSomeId defaults (OtherError "boom")).
  exists (mkWorld ["detail: " ++ nl ++ ": boom" ++ nl] LogErr 3
            [mkLogLine LogErr 3
               (nl ++ "Printed for user: detail: " ++ nl ++ ": boom" ++ nl ++ nl
                ++ "main.main" ++ nl ++ "runtime.main " ++ nl)]
            (callers world0)).
  split; [vm_compute; reflexivity|].
  repeat split; try reflexivity.
  cbn. discriminate.
Qed.

(** C1, as the code has it: for an error that is not an [ExtendedError]
    value, [Handle(err, "SomeId", "detail")] calls the print function
    with ["detail: \n: "] followed by the error's message, then the log
    function with the id [LogErr] (an id that is neither [Panic] nor
    [Fail] is replaced by it), and returns a handled instance whose
    [Error()] is that same text. *)
Theorem Handle_promotes_plain (g : Globals) (err : error) (w : World) :
  isValue err = false ->
  let e := promotedSomeId g err in
  let shown := "detail: " ++ nl ++ ": " ++ error_Error err in
  Handle g (Some err) [AString "SomeId"; AString "detail"] w
  = (ErrPrinter g [AString shown] ;;;
     ErrLogger g [AString LogErr; AString (logDetail e "" (callers w))] ;;;
     ret (Some (ValueError e))) w
  /\ ExtendedError_Error e = shown
  /\ Handled e = true
  /\ Id e = LogErr.
Proof.
  intros Hv e shown.
  split; [|repeat split].
  assert (Hh : Handle g (Some err) [AString "SomeId"; AString "detail"] w
               = promoted g err "SomeId" [AString "detail"] w)
    by (destruct err; try discriminate; reflexivity).
  rewrite Hh. unfold promoted.
  rewrite (bind_Returned _ _ w ("detail: " ++ nl) w eq_refl).
  rewrite New_other by discriminate.
  unfold ExtendedError_Handle.
  rewrite bind_assoc.
  rewrite (bind_Returned _ _ w "" w eq_refl).
  rewrite bind_assoc.
  erewrite bind_cong; [|apply handle_logged; reflexivity].
  rewrite bind_assoc.
  apply bind_ext; intros _ w1.
  apply bind_ext; intros _ w2.
  reflexivity.
Qed.

Lemma Handle_promotes_plain_witness :
  stdout_and_log
    (Handle defaults (Some (OtherError "boom"))
       [AString "SomeId"; AString "detail"] world0)
  = Some (["detail: " ++ nl ++ ": boom" ++ nl],
          [mkLogLine LogErr 3
             (nl ++ "Printed for user: detail: " ++ nl ++ ": boom" ++ nl ++ nl
              ++ "main.main" ++ nl ++ "runtime.main " ++ nl)]).
Proof.
  rewrite (proj1 (Handle_promotes_plain defaults (OtherError "boom") world0
                    eq_refl)).
  reflexivity.
Defined.

(** * Further properties of the package *)

(** ** The default functions *)

Lemma Sprintln_one (s : string) : Sprintln [AString s] = s ++ nl.
Proof. reflexivity. Qed.

(** X4: [errlog] does nothing without arguments; with a string first it
    sets the prefix to it and the flags to date and time, and writes one
    line made of the other arguments only (a bare newline when there are
    none); with a first argument that is not a string it panics before
    it touches the logger. *)
Theorem errlog_spec (w : World) :
  errlog [] w = Returned tt w
  /\ (forall (p : string) (rest : list any),
        errlog (AString p :: rest) w = Returned tt (logged w p (Sprintln rest)))
  /\ (forall p : string,
        errlog [AString p] w = Returned tt (logged w p nl))
  /\ (forall (shown : string) (rest : list any),
        errlog (ANonString shown :: rest) w = Panicked TypeAssertionError w).
Proof.
  repeat split; try reflexivity.
  intros p rest. destruct rest as [|x rest]; [reflexivity|].
  unfold errlog.
  replace (1 <? Z.of_nat (length (AString p :: x :: rest))) with true
    by (symmetry; apply Z.ltb_lt; cbn [length]; lia).
  reflexivity.
Qed.

(** X5: [faillog] returns without exiting when it has no argument; with
    a string first it writes one line that holds every argument, the id
    included, and exits with status 1, so it never returns; with a first
    argument that is not a string it panics and does not exit. *)
Theorem faillog_spec (w : World) :
  faillog [] w = Returned tt w
  /\ (forall (p : string) (rest : list any),
        faillog (AString p :: rest) w
        = Exited 1 (logged w p (Sprintln (AString p :: rest))))
  /\ (forall (shown : string) (rest : list any),
        faillog (ANonString shown :: rest) w = Panicked TypeAssertionError w).
Proof. repeat split. Qed.

(** ** [stackFrames] *)

Lemma length_cons_pos {A} (x : A) (l : list A) :
  (0 <? Z.of_nat (length (x :: l))) = true.
Proof. apply Z.ltb_lt. cbn [length]. lia. Qed.

(** X2: [stackFrames] gives the empty text for an error without the
    [StackTrace] method, whatever the budget, and for a budget of 0,
    whatever the stack and whatever follows the budget. *)
Theorem stackFramesOf_empty :
  (forall (err : error) (f : list Z), stackFramesOf (Untraced err) f = "")
  /\ (forall (e : withStack) (more : list Z),
        stackFramesOf (Traced e) (0 :: more) = "").
Proof.
  split; [reflexivity|].
  intros e more. unfold stackFramesOf.
  now rewrite length_cons_pos.
Qed.

Lemma stackFramesOf_kept (e : withStack) (fr : Z) (more : list Z) :
  fr <> 0 ->
  stackFramesOf (Traced e) (fr :: more)
  = formatStackTrace (keptFrames fr (stack e)).
Proof.
  intros Hfr. unfold stackFramesOf, keptFrames.
  rewrite length_cons_pos.
  destruct (Z.eqb_spec fr 0) as [|_]; [contradiction|].
  cbn [andb].
  destruct (Z.ltb_spec 0 fr) as [Hpos|Hneg]; cbn [andb]; [|reflexivity].
  destruct (Z.ltb_spec fr (Z.of_nat (length (stack e)))) as [Hlt|Hge];
    [reflexivity|].
  rewrite firstn_all2; [reflexivity|lia].
Qed.

(** X3: for a positive budget [stackFrames] prints the top frames, as
    many as the budget or all when the stack is shorter; for a negative
    budget, and when no budget is given, it prints all frames. *)
Theorem stackFramesOf_budget (e : withStack) (fr : Z) :
  (0 < fr ->
   stackFramesOf (Traced e) [fr]
   = formatStackTrace (firstn (Z.to_nat fr) (stack e))
   /\ length (firstn (Z.to_nat fr) (stack e))
      = Nat.min (Z.to_nat fr) (length (stack e)))
  /\ (fr < 0 -> stackFramesOf (Traced e) [fr] = formatStackTrace (stack e))
  /\ stackFramesOf (Traced e) [] = formatStackTrace (stack e).
Proof.
  split; [|split].
  - intros Hpos. split; [|apply length_firstn].
    rewrite stackFramesOf_kept by lia. unfold keptFrames.
    now replace (0 <? fr) with true by (symmetry; apply Z.ltb_lt; lia).
  - intros Hneg. rewrite stackFramesOf_kept by lia. unfold keptFrames.
    now replace (0 <? fr) with false by (symmetry; apply Z.ltb_ge; lia).
  - reflexivity.
Qed.

Lemma stackFramesOf_budget_witness :
  let e := mkWithStack (OtherError "boom") ["f"; "g"; "h"] in
  stackFramesOf (Traced e) [2] = nl ++ "f" ++ nl ++ "g"
  /\ stackFramesOf (Traced e) [5] = nl ++ "f" ++ nl ++ "g" ++ nl ++ "h"
  /\ stackFramesOf (Traced e) [-1] = nl ++ "f" ++ nl ++ "g" ++ nl ++ "h".
Proof.
  intros e. split; [|split].
  - rewrite (proj1 (proj1 (stackFramesOf_budget e 2) eq_refl)). reflexivity.
  - rewrite (proj1 (proj1 (stackFramesOf_budget e 5) eq_refl)). reflexivity.
  - rewrite (proj1 (proj2 (stackFramesOf_budget e (-1))) eq_refl). reflexivity.
Defined.

(** ** [handle] and the stack budget *)

(** X6: at a positive level, with a stack budget of 0 the text logged
    has no stack segment and does not depend on the call stack; with
    any other budget it ends with the frames the budget keeps and a
    space. *)
Theorem handle_stack_budget (err : ExtendedError) (logmsg : string)
    (w : World) :
  0 < level err ->
  let user := ExtendedError_Error err in
  (stackFrames err = 0 ->
   handle err logmsg w
   = (printfn err [AString user] ;;;
      logfn err
        [AString (Id err);
         AString (logmsg ++ nl ++ "Printed for user: " ++ user ++ nl)]) w)
  /\ (stackFrames err <> 0 ->
      handle err logmsg w
      = (printfn err [AString user] ;;;
         logfn err
           [AString (Id err);
            AString (logmsg ++ nl ++ "Printed for user: " ++ user ++ nl
                     ++ formatStackTrace
                          (keptFrames (stackFrames err) (callers w))
                     ++ " ")]) w).
Proof.
  intros Hl user. split; intros Hs; rewrite handle_logged by exact Hl;
    unfold logDetail.
  - rewrite Hs. reflexivity.
  - destruct (Z.eqb_spec (stackFrames err) 0) as [|_]; [contradiction|].
    now rewrite stackFramesOf_kept.
Qed.

Lemma handle_stack_budget_witness :
  let e := New defaults (Some (OtherError "no such file")) LogErr "cannot open" in
  stdout_and_log (handle (ExtendedError_Stack e 0) "ctx" world0)
  = Some (["cannot open: no such file" ++ nl],
          [mkLogLine LogErr 3
             ("ctx" ++ nl ++ "Printed for user: cannot open: no such file"
              ++ nl ++ nl)])
  /\ stdout_and_log (handle (ExtendedError_Stack e 1) "ctx" world0)
     = Some (["cannot open: no such file" ++ nl],
             [mkLogLine LogErr 3
                ("ctx" ++ nl ++ "Printed for user: cannot open: no such file"
                 ++ nl ++ nl ++ "main.main " ++ nl)]).
Proof.
  intros e. split.
  - rewrite (proj1 (handle_stack_budget (ExtendedError_Stack e 0) "ctx" world0
                      eq_refl) eq_refl).
    reflexivity.
  - rewrite (proj2 (handle_stack_budget (ExtendedError_Stack e 1) "ctx" world0
                      eq_refl)) by discriminate.
    reflexivity.
Defined.

Lemma handle_print_errlog (err : ExtendedError) (logmsg : string) (w : World) :
  printfn err = print -> logfn err = errlog -> 0 < level err ->
  handle err logmsg w
  = Returned tt
      (logged (printed w (ExtendedError_Error err ++ nl)) (Id err)
         (logDetail err logmsg (callers w) ++ nl)).
Proof.
  intros Hp Hf Hl. rewrite handle_logged by exact Hl.
  rewrite Hp, Hf. reflexivity.
Qed.

Lemma handle_print_faillog (err : ExtendedError) (logmsg : string) (w : World) :
  printfn err = print -> logfn err = faillog -> 0 < level err ->
  handle err logmsg w
  = Exited 1
      (logged (printed w (ExtendedError_Error err ++ nl)) (Id err)
         ((Id err ++ " " ++ logDetail err logmsg (callers w)) ++ nl)).
Proof.
  intros Hp Hf Hl. rewrite handle_logged by exact Hl.
  rewrite Hp, Hf. reflexivity.
Qed.

(** X7: with the default print and log functions and a positive level,
    handling returns after one more line on standard output (the display
    string) and one more line in the log, and it leaves the shared
    logger with the instance's id as prefix and the date and time
    flags. *)
Theorem handle_defaults (err : ExtendedError) (logmsg : string) (w : World) :
  printfn err = print -> logfn err = errlog -> 0 < level err ->
  exists w',
    handle err logmsg w = Returned tt w'
    /\ stdout w' = app (stdout w) [ExtendedError_Error err ++ nl]
    /\ log_output w'
       = app (log_output w)
           [mkLogLine (Id err) (Z.lor Ldate Ltime)
              (logDetail err logmsg (callers w) ++ nl)]
    /\ log_prefix w' = Id err
    /\ log_flags w' = Z.lor Ldate Ltime.
Proof.
  intros Hp Hf Hl. eexists. split.
  - apply handle_print_errlog; assumption.
  - repeat split.
Qed.

Lemma handle_defaults_witness :
  exists w',
    handle (New defaults None "SomeId" "not too bad") "ctx" world0
    = Returned tt w'
    /\ stdout w' = ["not too bad" ++ nl]
    /\ log_output w'
       = [mkLogLine LogErr 3
            ("ctx" ++ nl ++ "Printed for user: not too bad" ++ nl ++ nl
             ++ "main.main" ++ nl ++ "runtime.main " ++ nl)]
    /\ log_prefix w' = LogErr
    /\ log_flags w' = 3.
Proof.
  exact (handle_defaults (New defaults None "SomeId" "not too bad") "ctx" world0
           eq_refl eq_refl eq_refl).
Defined.

(** ** The [Handle] method *)

Lemma ExtendedError_Handle_Ok (e : ExtendedError) (logmsg : list any)
    (m : string) (w : World) :
  concatMsg logmsg = Ok m ->
  ExtendedError_Handle e logmsg w
  = (handle e m ;;; ret (setHandled e true, ValueError (setHandled e true))) w.
Proof.
  intros Hm. unfold ExtendedError_Handle. rewrite Hm. reflexivity.
Qed.


Lemma usermsg_New (g : Globals) (err : option error) (id msg : string) :
  usermsg (New g err id msg) = msg.
Proof.
  unfold New.
  destruct (String.eqb id Fail || String.eqb id Panic)%bool, err; reflexivity.
Qed.


(** X8: with the default functions, handling an instance built with the
    [Panic] or the [Fail] id never returns and never panics on a
    well-formed call: it prints the display string, logs one line that
    starts with the id, and exits with status 1, for [Panic] as for
    [Fail]. *)
Theorem Handle_fatal_exits (err : option error) (id msg : string)
    (logmsg : list any) (m : string) (w : World) :
  id = Panic \/ id = Fail ->
  concatMsg logmsg = Ok m ->
  let e := New defaults err id msg in
  ExtendedError_Handle e logmsg w
  = Exited 1
      (logged (printed w (ExtendedError_Error e ++ nl)) id
         ((id ++ " " ++ logDetail e m (callers w)) ++ nl)).
Proof.
  intros Hid Hm e.
  rewrite (ExtendedError_Handle_Ok e logmsg m w Hm).
  unfold bind.
  rewrite handle_print_faillog;
    subst e; rewrite New_fatal by exact Hid; reflexivity.
Qed.

Lemma Handle_fatal_exits_witness :
  ExtendedError_Handle (New defaults None Panic "out of memory") [] world0
  = Exited 1
      (mkWorld ["out of memory" ++ nl] Panic 3
         [mkLogLine Panic 3
            (Panic ++ " " ++ nl ++ "Printed for user: out of memory" ++ nl ++ nl
             ++ "main.main" ++ nl ++ "runtime.main " ++ nl)]
         (callers world0)).
Proof.
  apply (Handle_fatal_exits None Panic "out of memory" [] "" world0).
  - left; reflexivity.
  - reflexivity.
Defined.



(** X10: the [Handled] flag is set by a call that returns and is never
    read: handling the instance a second time makes the same calls as
    handling the instance as it was before. *)
Theorem Handle_again (e e' : ExtendedError) (r : error)
    (logmsg : list any) (w w' : World) :
  ExtendedError_Handle e logmsg w = Returned (e', r) w' ->
  Handled e' = true
  /\ forall (logmsg2 : list any) (w2 : World),
       ExtendedError_Handle e' logmsg2 w2 = ExtendedError_Handle e logmsg2 w2.
Proof.
  intros H. apply ExtendedError_Handle_Returned in H as [-> _].
  split; reflexivity.
Qed.

Lemma Handle_again_witness :
  let e := New defaults None LogErr "cannot open" in
  Handled (setHandled e true) = true
  /\ forall (logmsg2 : list any) (w2 : World),
       ExtendedError_Handle (setHandled e true) logmsg2 w2
       = ExtendedError_Handle e logmsg2 w2.
Proof.
  intros e.
  apply (Handle_again e (setHandled e true) (ValueError (setHandled e true))
           [] world0
           (logged (printed world0 ("cannot open" ++ nl)) LogErr
              (logDetail e "" (callers world0) ++ nl))).
  reflexivity.
Defined.

(** ** What no method changes *)

Lemma config_call_fields e e' :
  config_call e e' ->
  werr e' = werr e /\ usermsg e' = usermsg e /\ Id e' = Id e
  /\ Handled e' = Handled e.
Proof.
  destruct 1 as [e lvl fns|e fn|e frames]; try now repeat split.
  destruct fns; now repeat split.
Qed.

Lemma nonconfig_call_text e e' :
  nonconfig_call e e' ->
  werr e' = werr e /\ usermsg e' = usermsg e /\ Id e' = Id e.
Proof.
  destruct 1 as [e logmsg w e' r w' H| |]; try now repeat split.
  apply ExtendedError_Handle_Returned in H as [-> _].
  now repeat split.
Qed.

Lemma method_calls_text e e' :
  method_calls e e' ->
  werr e' = werr e /\ usermsg e' = usermsg e /\ Id e' = Id e.
Proof.
  induction 1 as [e|e1 e2 e3 _ IH Hc|e1 e2 e3 _ IH Hc]; [now repeat split| |].
  - apply config_call_fields in Hc.
    destruct IH as (I1 & I2 & I3), Hc as (H1 & H2 & H3 & _).
    repeat split; congruence.
  - apply nonconfig_call_text in Hc.
    destruct IH as (I1 & I2 & I3), Hc as (H1 & H2 & H3).
    repeat split; congruence.
Qed.

Lemma Error_of_fields (e e' : ExtendedError) :
  werr e' = werr e -> usermsg e' = usermsg e ->
  ExtendedError_Error e' = ExtendedError_Error e.
Proof.
  unfold ExtendedError_Error, ExtendedErrorOf_Error. now intros -> ->.
Qed.

(** X1: [Unwrap] gives back the error [New] was given (nil when it was
    nil), and neither it nor the text of [Error] changes through any
    sequence of [Log], [Print], [Stack], [Handle], [Error] and [Unwrap]
    calls on the instance. *)
Theorem Unwrap_after_calls (g : Globals) (err : option error)
    (id msg : string) (e' : ExtendedError) :
  method_calls (New g err id msg) e' ->
  ExtendedError_Unwrap e' = err
  /\ ExtendedError_Error e' = ExtendedError_Error (New g err id msg)
  /\ ExtendedError_Error e'
     = match err with
       | Some wrapped => msg ++ ": " ++ error_Error wrapped
       | None => msg
       end.
Proof.
  intros H. apply method_calls_text in H as (Hw & Hu & _).
  assert (He : ExtendedError_Error e'
               = ExtendedError_Error (New g err id msg))
    by now apply Error_of_fields.
  unfold ExtendedError_Unwrap. rewrite Hw, werr_New.
  split; [reflexivity|]. split; [exact He|].
  rewrite He. unfold ExtendedError_Error, ExtendedErrorOf_Error.
  rewrite werr_New, usermsg_New. reflexivity.
Qed.

Lemma Unwrap_after_calls_witness :
  let e := New quietFail (Some (OtherError "disk full")) Fail "cannot save" in
  let e' := setHandled (ExtendedError_Stack (ExtendedError_Log e 2 [errlog]) 0)
              true in
  ExtendedError_Unwrap e' = Some (OtherError "disk full")
  /\ ExtendedError_Error e' = ExtendedError_Error e
  /\ ExtendedError_Error e' = "cannot save: disk full".
Proof.
  intros e e'.
  apply (Unwrap_after_calls quietFail (Some (OtherError "disk full")) Fail
           "cannot save" e').
  eapply methods_nonconfig.
  - eapply methods_config; [eapply methods_config; [apply methods_none|]|].
    + apply (call_Log e 2 [errlog]).
    + apply (call_Stack (ExtendedError_Log e 2 [errlog]) 0).
  - eapply call_Handle with (logmsg := [AString "save"]) (w := world0).
    reflexivity.
Defined.

(** ** The label of [concatMsg] *)

Lemma TrimRight_spaces (n : nat) : TrimRight (spaces n) " " = "".
Proof.
  induction n as [|n IH]; [reflexivity|].
  cbn [spaces TrimRight]. rewrite IH. reflexivity.
Qed.

Lemma TrimRight_app_spaces (a : string) (n : nat) :
  TrimRight (a ++ spaces n) " " = TrimRight a " ".
Proof.
  induction a as [|c a IH].
  - cbn [append]. apply TrimRight_spaces.
  - cbn [append TrimRight]. now rewrite IH.
Qed.

(** X11: spaces at the end of the first message do not show in the text
    [concatMsg] builds. *)
Theorem concatMsg_label_spaces (a : string) (n : nat) (rest : list any) :
  concatMsg (AString (a ++ spaces n) :: rest) = concatMsg (AString a :: rest).
Proof.
  rewrite !concatMsg_label. now rewrite TrimRight_app_spaces.
Qed.

(** X16: [concatMsg] panics exactly when it is given at least one
    message and the first is not a string; messages after the first may
    be of any type. *)
Theorem concatMsg_panics_iff (msg : list any) :
  (exists v, concatMsg msg = Fault v)
  <-> (exists shown rest, msg = ANonString shown :: rest).
Proof.
  split.
  - intros [v H]. destruct msg as [|[a|shown] rest].
    + discriminate.
    + rewrite concatMsg_label in H. discriminate.
    + now exists shown, rest.
  - intros (shown & rest & ->). exists TypeAssertionError.
    apply concatMsg_nonstring.
Qed.

(** ** More on the dispatcher *)

Lemma Handle_promoted (g : Globals) (err : error) (t : string)
    (rest : list any) (w : World) :
  isValue err = false ->
  Handle g (Some err) (AString t :: rest) w = promoted g err t rest w.
Proof. destruct err; try discriminate; reflexivity. Qed.




(** X13: for an error that is not an [ExtendedError] value, [Handle]
    called with a string id followed by a value that is not a string
    panics on the type assertion of [concatMsg], before an instance is
    built and before anything is printed or logged. *)
Theorem Handle_promotion_panics (g : Globals) (err : error) (t shown : string)
    (rest : list any) (w : World) :
  isValue err = false ->
  Handle g (Some err) (AString t :: ANonString shown :: rest) w
  = Panicked TypeAssertionError w.
Proof.
  intros Hv. rewrite Handle_promoted by exact Hv.
  unfold promoted. now rewrite concatMsg_nonstring.
Qed.

Lemma Handle_promotion_panics_witness :
  Handle defaults (Some (OtherError "boom"))
    [AString "SomeId"; ANonString "42"] world0
  = Panicked TypeAssertionError world0.
Proof.
  exact (Handle_promotion_panics defaults (OtherError "boom") "SomeId" "42" []
           world0 eq_refl).
Defined.

(** X14: when [Handle] returns for an error that is not nil, what it
    returns is not nil: it is the error it was given, with nothing
    printed or logged, or an [ExtendedError] value marked as handled. *)
Theorem Handle_result (g : Globals) (err : error) (msg : list any)
    (w w' : World) (r : option error) :
  Handle g (Some err) msg w = Returned r w' ->
  (r = Some err /\ w' = w)
  \/ (exists e, r = Some (ValueError e) /\ Handled e = true).
Proof.
  intros H. destruct err as [text|Err|target].
  - destruct msg as [|[t|shown] rest].
    + injection H as <- <-. now left.
    + apply promoted_Returned in H as (e & -> & _ & He). right. now exists e.
    + injection H as <- <-. now left.
  - cbn [Handle] in H.
    apply bind_inv_Returned in H as ([e' r'] & w1 & Hh & H).
    apply ExtendedError_Handle_Returned in Hh as [-> ->].
    unfold ret in H. injection H as <- _.
    right. eexists. split; reflexivity.
  - destruct msg as [|[t|shown] rest].
    + injection H as <- <-. now left.
    + apply promoted_Returned in H as (e & -> & _ & He). right. now exists e.
    + injection H as <- <-. now left.
Qed.

Lemma Handle_result_witness :
  (Some (OtherError "boom") = Some (OtherError "boom") /\ world0 = world0)
  \/ (exists e, Some (OtherError "boom") = Some (ValueError e)
                /\ Handled e = true).
Proof.
  exact (Handle_result defaults (OtherError "boom") [] world0 world0
           (Some (OtherError "boom")) eq_refl).
Defined.



(** ** Configuration calls *)

(** X17: a logger given to [Log] replaces the one [New] chose, also for
    an instance built with the [Panic] or the [Fail] id: at a positive
    level handling then calls the print function of the package and the
    given logger, with the id the instance was built with, and
    [FailLogger] is not called. *)
Theorem Log_replaces_logger (g : Globals) (err : option error)
    (id msg : string) (lvl : Z) (lf : LogFunc) (others : list LogFunc)
    (logmsg : string) (w : World) :
  id = Panic \/ id = Fail ->
  0 < lvl ->
  let e := ExtendedError_Log (New g err id msg) lvl (lf :: others) in
  handle e logmsg w
  = (ErrPrinter g [AString (ExtendedError_Error (New g err id msg))] ;;;
     lf [AString id; AString (logDetail e logmsg (callers w))]) w.
Proof.
  intros Hid Hl e.
  rewrite handle_logged by (subst e; exact Hl).
  subst e. rewrite New_fatal by exact Hid. reflexivity.
Qed.

Lemma Log_replaces_logger_witness :
  stdout_and_log
    (handle (ExtendedError_Log (New defaults None Fail "cannot save") 2 [errlog])
       "ctx" world0)
  = Some (["cannot save" ++ nl],
          [mkLogLine Fail 3
             ("ctx" ++ nl ++ "Printed for user: cannot save" ++ nl ++ nl
              ++ "main.main" ++ nl ++ "runtime.main " ++ nl)]).
Proof.
  rewrite (Log_replaces_logger defaults None Fail "cannot save" 2 errlog []
             "ctx" world0 (or_intror eq_refl) eq_refl).
  reflexivity.
Defined.

